(** * Stellar Observatory AI proxy server (ai-server.js)

    A shallow embedding of the Express routes of the AI proxy: the
    process-wide [currentModel] cell is threaded explicitly through every
    handler, and the outcome of each upstream (axios) call is an input of
    the handler.  Strings are byte strings; request texts are taken to be
    ASCII, where [toLowerCase] and [trim] are the ASCII maps below
    (JavaScript also maps some non-ASCII characters, such as U+212A to
    'k', and trims non-ASCII white space; such inputs are not modelled). *)

From Stdlib Require Import String Ascii List Bool Arith ZArith Lia.
From Stdlib Require QArith_base.
From Stdlib Require Import Sorting.Sorted Sorting.Permutation.
Import ListNotations.
Open Scope string_scope.
Open Scope list_scope.

(* ------------------------------------------------------------------ *)
(** ** JavaScript string primitives *)

(** [c.toLowerCase()] on one ASCII character. *)
Definition lower_char (c : ascii) : ascii :=
  let n := nat_of_ascii c in
  if (Nat.leb 65 n) && (Nat.leb n 90) then ascii_of_nat (n + 32) else c.

(** [String.prototype.toLowerCase]. *)
Fixpoint toLowerCase (s : string) : string :=
  match s with
  | EmptyString => EmptyString
  | String c s' => String (lower_char c) (toLowerCase s')
  end.

(** The ASCII members of the JavaScript WhiteSpace and LineTerminator sets. *)
Definition is_js_space (c : ascii) : bool :=
  let n := nat_of_ascii c in
  (Nat.leb 9 n && Nat.leb n 13) || Nat.eqb n 32.

Fixpoint trim_start (s : string) : string :=
  match s with
  | EmptyString => EmptyString
  | String c s' => if is_js_space c then trim_start s' else s
  end.

Fixpoint trim_end (s : string) : string :=
  match s with
  | EmptyString => EmptyString
  | String c s' =>
      let r := trim_end s' in
      if (r =? "") && is_js_space c then "" else String c r
  end.

(** [String.prototype.trim]. *)
Definition trim (s : string) : string := trim_end (trim_start s).

(** [s.includes(k)]: [k] occurs in [s] at some position. *)
Fixpoint includes (s k : string) : bool :=
  prefix k s ||
  match s with
  | EmptyString => false
  | String _ s' => includes s' k
  end.

(** [s.replace(pat, rep)] with a string pattern: the first occurrence only. *)
Fixpoint replace_first (pat rep s : string) : string :=
  if prefix pat s then rep ++ substring (String.length pat) (String.length s - String.length pat) s
  else match s with
       | EmptyString => EmptyString
       | String c s' => String c (replace_first pat rep s')
       end.

(** JavaScript values the handlers put into a JSON reply.  [JSON.stringify]
    drops a property whose value is [undefined] or a function, and writes an
    ordinary object as [{}]. *)
Inductive jsval :=
| JUndefined
| JString (s : string)
| JFunction (name : string)
| JObject.

(** JavaScript truthiness. *)
Definition truthy (v : jsval) : bool :=
  match v with
  | JUndefined => false
  | JString s => negb (s =? "")
  | JFunction _ | JObject => true
  end.

(** An optional request field: [None] when the JSON body lacks it. *)
Definition field_truthy (f : option string) : bool :=
  match f with
  | Some s => negb (s =? "")
  | None => false
  end.

Definition js_of_option (o : option string) : jsval :=
  match o with Some s => JString s | None => JUndefined end.

(** [s || d] for an optional string [s]: [d] when [s] is absent or empty. *)
Definition js_or (s : option string) (d : string) : string :=
  match s with
  | Some v => if v =? "" then d else v
  | None => d
  end.

(** The decimal digits of [n] in front of [acc]; [fuel] bounds the steps. *)
Fixpoint decimal_digits (fuel n : nat) (acc : string) : string :=
  match fuel with
  | 0 => acc
  | S f =>
      let acc' := String (ascii_of_nat (48 + n mod 10)) acc in
      if Nat.ltb n 10 then acc' else decimal_digits f (n / 10) acc'
  end.

(** [String(n)] for a natural number. *)
Definition decimal_of_nat (n : nat) : string := decimal_digits (S n) n "".

(* ------------------------------------------------------------------ *)
(** ** Upstream API *)

(** One part of [candidate.content.parts]; [None] when it has no [text]. *)
Definition part := option string.
(** A candidate, by its [content.parts]. *)
Definition candidate := list part.

Record response_data := {
  candidates : list candidate;
  totalTokenCount : option nat
}.

(** The outcome of one [axios.post] call: a 2xx reply with its body, a
    non-2xx reply (axios rejects it, [error.response] is set), or a network
    error or timeout (axios rejects, [error.response] is undefined). *)
Inductive upstream_result :=
| Ok (data : response_data)
| HttpError (status : nat) (error_message : option string)
| NetError (message : string).

(** [response.data?.candidates?.[0]?.content?.parts?.[0]?.text]. *)
Definition first_text (d : response_data) : option string :=
  match candidates d with
  | (p :: _) :: _ => p
  | _ => None
  end.

(** The call resolved and the extracted text is truthy. *)
Definition yields_text (u : upstream_result) : bool :=
  match u with
  | Ok d => field_truthy (first_text d)
  | _ => false
  end.

(** [error.response?.status] of the error the handler catches. *)
Definition error_status (u : upstream_result) : option nat :=
  match u with
  | HttpError st _ => Some st
  | _ => None
  end.

(** [error.response?.data?.error?.message]. *)
Definition error_message (u : upstream_result) : option string :=
  match u with
  | HttpError _ m => m
  | _ => None
  end.

(** [error.message] of the axios rejection for a non-2xx reply. *)
Definition axios_status_message (st : nat) : string :=
  "Request failed with status code " ++ decimal_of_nat st.
(** Response text of the rate-limit (429) branch of [app.post('/chat')]. *)
Definition rate_limit_text : string :=
  "ğŸŒŒ The cosmic bandwidth is saturated right now (rate limit reached). Our telescopes are still collecting data - try again in a moment!".

(** Canned fallback text of [app.post('/chat')], line 322. *)
Definition fallback_asteroid_text : string :=
  "While I'm syncing with the deep space network, here's asteroid info from our local database: We track thousands of near-Earth objects. Most are small and pose no threat, but we monitor all closely. Check our Tracking page for real-time data! ğŸš€".

(** Canned fallback text of [app.post('/chat')], line 324. *)
Definition fallback_mars_text : string :=
  "The Mars connection has some static! Here's what I know: Mars is the 4th planet, has two moons, and is a prime target for exploration. Our 3D visualization shows its current position relative to Earth. ğŸ”´".

(** Canned fallback text of [app.post('/chat')], line 326. *)
Definition fallback_moon_text : string :=
  "Lunar signal weak! Quick facts: Our Moon is Earth's only natural satellite, about 1/4 Earth's diameter. It heavily influences tides and is crucial for future space exploration. ğŸŒ•".

(** Canned fallback text of [app.post('/chat')], line 328. *)
Definition fallback_star_text : string :=
  "Stellar interference detected! Stars are massive balls of plasma, galaxies contain billions of them. Our Milky Way has 100-400 billion stars. The observatory can simulate star fields in the 3D view! âœ¨".

(** Canned fallback text of [app.post('/chat')], line 330. *)
Definition fallback_risk_text : string :=
  "Risk assessment systems nominal. We use multiple factors: distance, size, velocity, orbit. Most asteroids have minimal risk. Try our Risk Analyzer tool for detailed simulations! âš ï¸".

(** Canned fallback text of [app.post('/chat')], line 332. *)
Definition fallback_generic_text : string :=
  "Cosmic AI here! I'm experiencing some interstellar static. The Stellar Observatory platform is fully operational with asteroid tracking, risk analysis, and 3D visualization. What would you like to explore? ğŸ›°ï¸".

(* ------------------------------------------------------------------ *)
(** ** Model listing data *)

(** An entry of the upstream [models] array; an absent [name] is [""]
    (both are falsy). *)
Record model_desc := {
  md_name : string;
  md_displayName : option string;
  md_description : option string;
  md_supportedGenerationMethods : option (list string)
}.

(** An entry of the [textModels] array built by [app.get('/models')]. *)
Record text_model := {
  tm_name : string;
  tm_displayName : option string;
  tm_description : option string;
  tm_supportedMethods : list string
}.

(* ------------------------------------------------------------------ *)
(** ** Replies *)

(** An HTTP reply: its status and the JSON properties the routes share
    ([tried] is [triedModels] of /test-gemini, [models] is [models] of
    /models).  Timestamps, notes and tips are left out. *)
Record reply := {
  status : nat;
  success : option bool;
  response : jsval;
  model : option string;
  error : option string;
  tried : list string;
  models : list text_model
}.

Definition mk_reply (st : nat) (ok : option bool) (r : jsval)
    (m : option string) (e : option string) : reply :=
  {| status := st; success := ok; response := r; model := m; error := e;
     tried := []; models := [] |}.

(** What a route handler does with a request: it sends a reply, or an
    exception escapes its [catch] block and it sends none.  Express then
    handles the rejected promise: Express 5 answers with its default error
    page (status 500), Express 4 leaves the request unanswered. *)
Inductive outcome :=
| Sent (r : reply)
| Thrown (err : string).

(* ------------------------------------------------------------------ *)
(** ** app.post('/chat') *)

(** The [fallbackModels] of the 404 branch of /chat. *)
Definition chat_fallback_models : list string :=
  ["gemini-2.0-flash"; "gemini-pro-latest"; "gemini-exp-1206"].

(** [for (const model of fallbackModels) if (model !== currentModel)
    { currentModel = model; break; }]: the value of [currentModel] after the
    loop. *)
Fixpoint switch_model (fallbackModels : list string) (currentModel : string)
    : string :=
  match fallbackModels with
  | [] => currentModel
  | m :: ms => if negb (m =? currentModel) then m else switch_model ms currentModel
  end.

(** The if/else-if chain choosing [fallbackResponse] from the lowercased
    [userMessage]. *)
Definition pick_fallback (userMessage : string) : string :=
  if includes userMessage "asteroid" || includes userMessage "neo" then
    fallback_asteroid_text
  else if includes userMessage "mars" || includes userMessage "planet" then
    fallback_mars_text
  else if includes userMessage "moon" || includes userMessage "lunar" then
    fallback_moon_text
  else if includes userMessage "star" || includes userMessage "galaxy" then
    fallback_star_text
  else if includes userMessage "risk" || includes userMessage "danger" then
    fallback_risk_text
  else fallback_generic_text.

(** [error.response?.status === code]. *)
Definition status_is (st : option nat) (code : nat) : bool :=
  match st with
  | Some n => Nat.eqb n code
  | None => false
  end.

(** The [catch] block of /chat, for a caught error with
    [error.response?.status = st] and upstream message [em]. *)
Definition chat_catch (currentModel : string) (message : option string)
    (st : option nat) (em : option string) : reply * string :=
  if status_is st 429 then
    (mk_reply 429 (Some false) (JString rate_limit_text)
       (Some currentModel) (Some "Rate limit exceeded"), currentModel)
  else
    let currentModel' :=
      if status_is st 404 then switch_model chat_fallback_models currentModel
      else currentModel in
    let userMessage :=
      toLowerCase (match message with Some s => s | None => "" end) in
    (mk_reply 200 (Some false) (JString (pick_fallback userMessage))
       (Some currentModel')
       (Some (js_or em "Connection issue")),
     currentModel').

(** [app.post('/chat')]: the reply and the new [currentModel], given
    [req.body.message] and the outcome of the upstream call. *)
Definition chat (currentModel : string) (message : option string)
    (up : upstream_result) : reply * string :=
  if negb (field_truthy message) then
    (mk_reply 400 None JUndefined None (Some "Message is required"), currentModel)
  else
    match up with
    | Ok d =>
        match first_text d with
        | Some t =>
            if negb (t =? "") then
              (mk_reply 200 (Some true) (JString t) (Some currentModel) None,
               currentModel)
            else chat_catch currentModel message None None
        | None => chat_catch currentModel message None None
        end
    | HttpError st em => chat_catch currentModel message (Some st) em
    | NetError _ => chat_catch currentModel message None None
    end.

(* ------------------------------------------------------------------ *)
(** ** app.post('/echo') *)

Definition dquote : string := String (ascii_of_nat 34) EmptyString.

(** The echo reply wraps [message || 'Silence in space...'] in double quotes
    after a fixed banner (its leading emoji left out). *)
Definition echo (currentModel : string) (message : option string) : reply :=
  let shown := if field_truthy message
               then match message with Some s => s | None => "" end
               else "Silence in space..." in
  mk_reply 200 None
    (JString ("Echo from Stellar Observatory: " ++ dquote ++ shown ++ dquote))
    (Some currentModel) None.

(* ------------------------------------------------------------------ *)
(** ** app.post('/asteroid-info') *)

(** The catch block of /asteroid-info (lines 413-438) begins by evaluating
    [asteroidName.toLowerCase()] at line 425.  The [const asteroidName] of
    line 362 is declared in the [try] block and is not in scope there, so
    the identifier is unbound and this throws a ReferenceError: the fact
    sheets of [asteroidDatabase] and the under-analysis template that
    follow are never evaluated. *)
Definition asteroid_reference_error : string :=
  "ReferenceError: asteroidName is not defined".

Definition ask_for_asteroid_text : string :=
  "Please specify which asteroid you're curious about! Try: Bennu, Apophis, Ceres, Eros, or Itokawa.".

(** [app.post('/asteroid-info')]; it never assigns [currentModel].  When
    the upstream call rejects, its catch block throws at line 425. *)
Definition asteroid_info (currentModel : string) (asteroidName : option string)
    (up : upstream_result) : outcome :=
  match asteroidName with
  | Some name =>
      if negb (name =? "") then
        match up with
        | Ok d => Sent (mk_reply 200 (Some true) (js_of_option (first_text d))
                          (Some currentModel) None)
        | _ => Thrown asteroid_reference_error
        end
      else Sent (mk_reply 200 (Some false) (JString ask_for_asteroid_text) None None)
  | None => Sent (mk_reply 200 (Some false) (JString ask_for_asteroid_text) None None)
  end.

(* ------------------------------------------------------------------ *)
(** ** app.get('/quick-test') *)

(** [app.get('/quick-test')]; it never assigns [currentModel]. *)
Definition quick_test (currentModel : string) (up : upstream_result) : reply :=
  match up with
  | Ok d => mk_reply 200 (Some true) (js_of_option (first_text d))
              (Some currentModel) None
  | HttpError st _ => mk_reply 200 (Some false) JUndefined (Some currentModel)
                        (Some (axios_status_message st))
  | NetError m => mk_reply 200 (Some false) JUndefined (Some currentModel) (Some m)
  end.

(* ------------------------------------------------------------------ *)
(** ** app.get('/test-gemini') *)

(** The [fallbackModels] of the catch block of /test-gemini. *)
Definition test_fallback_models : list string :=
  ["gemini-2.0-flash"; "gemini-pro-latest"; "gemini-exp-1206";
   "gemini-2.0-flash-001"].

(** The [for ... of] loop: the first model whose attempt resolves with a
    truthy text; a rejected or text-less attempt goes on to the next. *)
Fixpoint try_fallbacks (fallbackModels : list string)
    (attempt : string -> upstream_result) : option string :=
  match fallbackModels with
  | [] => None
  | m :: ms => if yields_text (attempt m) then Some m else try_fallbacks ms attempt
  end.

(** [error.response?.data?.error?.message || error.message] for the error
    caught by /test-gemini: the [Error] thrown for a reply without text,
    or the axios rejection. *)
Definition test_gemini_error (first : upstream_result) : string :=
  match first with
  | Ok _ => "No text in response from AI"
  | HttpError st em => js_or em (axios_status_message st)
  | NetError m => m
  end.

(** The catch block of /test-gemini. *)
Definition test_gemini_catch (currentModel : string) (first : upstream_result)
    (attempt : string -> upstream_result) : reply * string :=
  match try_fallbacks test_fallback_models attempt with
  | Some m => (mk_reply 200 (Some true) JUndefined (Some m) None, m)
  | None =>
      ({| status := 500; success := Some false; response := JUndefined;
          model := None; error := Some (test_gemini_error first);
          tried := test_fallback_models; models := [] |}, currentModel)
  end.

(** [app.get('/test-gemini')]: [first] is the outcome of the call with
    [currentModel], [attempt m] the outcome of the fallback call with [m]. *)
Definition test_gemini (currentModel : string) (first : upstream_result)
    (attempt : string -> upstream_result) : reply * string :=
  match first with
  | Ok d =>
      match first_text d with
      | Some t =>
          if negb (t =? "") then
            (mk_reply 200 (Some true) (JString t) (Some currentModel) None,
             currentModel)
          else test_gemini_catch currentModel first attempt
      | None => test_gemini_catch currentModel first attempt
      end
  | _ => test_gemini_catch currentModel first attempt
  end.

(* ------------------------------------------------------------------ *)
(** ** app.get('/models') *)

(** The predicate of [models.filter(...)]. *)
Definition keep_model (m : model_desc) : bool :=
  let name := md_name m in
  negb (name =? "") &&
  match md_supportedGenerationMethods m with
  | Some l => existsb (String.eqb "generateContent") l
  | None => false
  end &&
  negb (includes name "embedding") &&
  negb (includes name "imagen") &&
  negb (includes name "veo") &&
  negb (includes name "audio") &&
  negb (includes name "tts").

(** The function of [.map(...)]. *)
Definition to_text_model (m : model_desc) : text_model :=
  {| tm_name := replace_first "models/" "" (md_name m);
     tm_displayName := md_displayName m;
     tm_description := md_description m;
     tm_supportedMethods :=
       match md_supportedGenerationMethods m with Some l => l | None => [] end |}.

Definition is_flash (t : text_model) : bool := includes (tm_name t) "flash".

(** The outcome of the model list GET of /models: [response.data.models
    || []] when it resolves, the [error.message] of the rejection when it
    does not. *)
Inductive models_fetch :=
| Fetched (ms : list model_desc)
| FetchFailed (message : string).

Section Listing.

(** [String.prototype.localeCompare] of the runtime (ICU collation). *)
Variable localeCompare : string -> string -> comparison.

(** The comparator of [.sort(...)]: -1 is [Lt], 1 is [Gt]. *)
Definition flash_compare (a b : text_model) : comparison :=
  if is_flash a && negb (is_flash b) then Lt
  else if negb (is_flash a) && is_flash b then Gt
  else localeCompare (tm_name a) (tm_name b).

(** [Array.prototype.sort] is stable (ECMAScript 2019); with a consistent
    comparator its result is the stable sort, computed here by insertion:
    [x] goes before the first [y] it does not compare greater than. *)
Fixpoint insert_by (cmp : text_model -> text_model -> comparison)
    (x : text_model) (l : list text_model) : list text_model :=
  match l with
  | [] => [x]
  | y :: ys => match cmp x y with
               | Gt => y :: insert_by cmp x ys
               | _ => x :: y :: ys
               end
  end.

Definition sort_by (cmp : text_model -> text_model -> comparison)
    (l : list text_model) : list text_model :=
  fold_right (insert_by cmp) [] l.

(** [textModels] of /models, from [response.data.models || []]. *)
Definition textModels (ms : list model_desc) : list text_model :=
  sort_by flash_compare (map to_text_model (filter keep_model ms)).

(** [app.get('/models')], given the outcome of the upstream GET. *)
Definition list_models (currentModel : string)
    (fetched : models_fetch) : reply :=
  match fetched with
  | Fetched ms =>
      {| status := 200; success := Some true; response := JUndefined;
         model := None; error := None; tried := [];
         models := textModels ms |}
  | FetchFailed m => mk_reply 200 (Some false) JUndefined None (Some m)
  end.

End Listing.

(* ------------------------------------------------------------------ *)
(** ** The server *)

Definition initial_model : string := "gemini-2.5-flash".

Inductive request :=
| GetTest
| GetModels
| GetTestGemini
| GetHealth
| GetQuickTest
| PostChat (message : option string)
| PostEcho (message : option string)
| PostAsteroidInfo (asteroidName : option string).

(** What the upstream API answers while a request is handled: the call
    the route makes with [currentModel], the fallback calls of
    /test-gemini, and the model list GET of /models. *)
Record upstream := {
  up_call : upstream_result;
  up_fallback : string -> upstream_result;
  up_models : models_fetch
}.

(** A handler that sends its reply, with the new [currentModel]. *)
Definition sent (p : reply * string) : outcome * string := (Sent (fst p), snd p).

(** One request, handled to completion: what the handler does and the new
    value of [currentModel].  /test and /health report [currentModel] and
    make no upstream call. *)
Definition handle (localeCompare : string -> string -> comparison)
    (currentModel : string) (req : request) (env : upstream) : outcome * string :=
  match req with
  | GetTest | GetHealth =>
      (Sent (mk_reply 200 None JUndefined (Some currentModel) None), currentModel)
  | GetModels => (Sent (list_models localeCompare currentModel (up_models env)), currentModel)
  | GetTestGemini => sent (test_gemini currentModel (up_call env) (up_fallback env))
  | GetQuickTest => (Sent (quick_test currentModel (up_call env)), currentModel)
  | PostChat msg => sent (chat currentModel msg (up_call env))
  | PostEcho msg => (Sent (echo currentModel msg), currentModel)
  | PostAsteroidInfo n => (asteroid_info currentModel n (up_call env), currentModel)
  end.

(** The value of [currentModel] after a sequence of requests. *)
Fixpoint run (localeCompare : string -> string -> comparison)
    (currentModel : string) (trace : list (request * upstream)) : string :=
  match trace with
  | [] => currentModel
  | (req, env) :: rest =>
      run localeCompare (snd (handle localeCompare currentModel req env)) rest
  end.

(* ------------------------------------------------------------------ *)
(** ** Lemmas on the handlers *)

Lemma chat_missing_message cur msg up :
  field_truthy msg = false ->
  chat cur msg up =
  (mk_reply 400 None JUndefined None (Some "Message is required"), cur).
Proof. intros H. unfold chat. now rewrite H. Qed.

Lemma chat_failure cur msg up :
  field_truthy msg = true -> yields_text up = false ->
  chat cur msg up = chat_catch cur msg (error_status up) (error_message up).
Proof.
  intros Hm Hy. unfold chat. rewrite Hm. simpl.
  destruct up as [d|st em|e]; simpl in *; try reflexivity.
  unfold field_truthy in Hy. destruct (first_text d) as [t|]; [|reflexivity].
  now rewrite Hy.
Qed.

Lemma chat_success cur msg up :
  field_truthy msg = true -> yields_text up = true ->
  status (fst (chat cur msg up)) = 200 /\
  success (fst (chat cur msg up)) = Some true /\
  model (fst (chat cur msg up)) = Some cur /\
  snd (chat cur msg up) = cur.
Proof.
  intros Hm Hy. unfold chat. rewrite Hm. simpl.
  destruct up as [d|st em|e]; simpl in *; try discriminate.
  unfold field_truthy in Hy. destruct (first_text d) as [t|]; [|discriminate].
  rewrite Hy. simpl. auto.
Qed.

Lemma try_fallbacks_none ms attempt :
  try_fallbacks ms attempt = None <->
  (forall m, In m ms -> yields_text (attempt m) = false).
Proof.
  induction ms as [|m ms IH]; simpl.
  - split; [intros _ m []|reflexivity].
  - destruct (yields_text (attempt m)) eqn:E; split.
    + discriminate.
    + intros H. rewrite (H m (or_introl eq_refl)) in E. discriminate.
    + intros H m' [<-|Hin]; [assumption|]. now apply IH.
    + intros H. apply IH. intros m' Hin. apply H. now right.
Qed.

Lemma try_fallbacks_some ms attempt m :
  try_fallbacks ms attempt = Some m ->
  In m ms /\ yields_text (attempt m) = true.
Proof.
  induction ms as [|m' ms IH]; simpl; [discriminate|].
  destruct (yields_text (attempt m')) eqn:E.
  - intros H. injection H as <-. auto.
  - intros H. destruct (IH H). auto.
Qed.

Lemma test_gemini_unfold cur first attempt :
  test_gemini cur first attempt =
  if yields_text first then
    (mk_reply 200 (Some true) (js_of_option (match first with Ok d => first_text d | _ => None end))
       (Some cur) None, cur)
  else test_gemini_catch cur first attempt.
Proof.
  unfold test_gemini. destruct first as [d|st em|e]; simpl; try reflexivity.
  unfold field_truthy. destruct (first_text d) as [t|]; simpl; [|reflexivity].
  now destruct (t =? "").
Qed.

Lemma switch_model_first l cur :
  (exists x, In x l /\ x <> cur) ->
  exists pre post, l = pre ++ switch_model l cur :: post /\
    switch_model l cur <> cur /\ Forall (fun p => p = cur) pre.
Proof.
  induction l as [|m l IH]; simpl; intros [x [Hin Hx]]; [contradiction|].
  destruct (m =? cur)%string eqn:E; simpl.
  - apply String.eqb_eq in E. subst m.
    destruct Hin as [<-|Hin]; [contradiction|].
    destruct IH as [pre [post [H1 [H2 H3]]]]; [eauto|].
    exists (cur :: pre), post. rewrite H1 at 1. auto.
  - apply String.eqb_neq in E. exists [], l. auto.
Qed.

Lemma switch_model_chat cur :
  exists pre post,
    chat_fallback_models = pre ++ switch_model chat_fallback_models cur :: post /\
    switch_model chat_fallback_models cur <> cur /\ Forall (fun p => p = cur) pre.
Proof.
  apply switch_model_first.
  destruct (String.eqb_spec "gemini-2.0-flash" cur) as [<-|Hne].
  - exists "gemini-pro-latest". simpl. split; auto. discriminate.
  - exists "gemini-2.0-flash". simpl. auto.
Qed.

Lemma try_fallbacks_app pre m post attempt :
  Forall (fun p => yields_text (attempt p) = false) pre ->
  yields_text (attempt m) = true ->
  try_fallbacks (pre ++ m :: post) attempt = Some m.
Proof.
  intros Hpre Hm. induction Hpre as [|p pre Hp _ IH]; simpl.
  - now rewrite Hm.
  - now rewrite Hp.
Qed.

(* ------------------------------------------------------------------ *)
(** ** Reply statuses *)

(** Upstream answers a request with 429 and fails every other call. *)
Definition rate_limited_env : upstream :=
  {| up_call := HttpError 429 (Some "Resource has been exhausted");
     up_fallback := fun _ => NetError "timeout of 5000ms exceeded";
     up_models := FetchFailed "timeout" |}.



(* ------------------------------------------------------------------ *)
(** ** The active model *)

(** C3: after a /chat request whose upstream call failed with 429 the
    active model is the one before the request; after a failure with 404
    (for a request carrying a message) it is the first entry of
    ['gemini-2.0-flash', 'gemini-pro-latest', 'gemini-exp-1206'] that
    differs from the one before. *)
Theorem chat_active_model_after_failure cur msg up :
  (error_status up = Some 429 -> snd (chat cur msg up) = cur) /\
  (field_truthy msg = true -> error_status up = Some 404 ->
   exists pre post,
     chat_fallback_models = pre ++ snd (chat cur msg up) :: post /\
     snd (chat cur msg up) <> cur /\ Forall (fun p => p = cur) pre).
Proof.
  assert (Hy : forall k, error_status up = Some k -> yields_text up = false).
  { intros k H. destruct up; simpl in *; congruence. }
  split.
  - intros H. destruct (field_truthy msg) eqn:Em.
    + rewrite chat_failure by eauto. unfold chat_catch. now rewrite H.
    + now rewrite chat_missing_message.
  - intros Hm H. rewrite chat_failure by eauto. unfold chat_catch.
    rewrite H. simpl. apply switch_model_chat.
Qed.

(** A 404 on the model ['gemini-2.0-flash'] moves the chat to
    ['gemini-pro-latest']; a 429 keeps the model. *)
Lemma chat_active_model_after_failure_witness :
  snd (chat "gemini-2.0-flash" (Some "Hello") (HttpError 429 None)) = "gemini-2.0-flash" /\
  exists pre post,
    chat_fallback_models = pre ++ snd (chat "gemini-2.0-flash" (Some "Hello") (HttpError 404 None)) :: post /\
    snd (chat "gemini-2.0-flash" (Some "Hello") (HttpError 404 None)) <> "gemini-2.0-flash" /\
    Forall (fun p => p = "gemini-2.0-flash") pre.
Proof.
  split.
  - apply (proj1 (chat_active_model_after_failure "gemini-2.0-flash" (Some "Hello") (HttpError 429 None))).
    reflexivity.
  - apply (proj2 (chat_active_model_after_failure "gemini-2.0-flash" (Some "Hello") (HttpError 404 None)));
      reflexivity.
Defined.

(** C10: when a /chat request with a message fails upstream, the [model]
    property of the reply is the active model after the request: on a 404
    it is the newly selected fallback, which differs from the model whose
    call failed; on any other failure it is the unchanged active model. *)
Theorem chat_failure_reply_model cur msg up :
  field_truthy msg = true -> yields_text up = false ->
  model (fst (chat cur msg up)) = Some (snd (chat cur msg up)) /\
  (error_status up = Some 404 ->
   snd (chat cur msg up) = switch_model chat_fallback_models cur /\
   snd (chat cur msg up) <> cur) /\
  (error_status up <> Some 404 -> snd (chat cur msg up) = cur).
Proof.
  intros Hm Hy. rewrite chat_failure by assumption. unfold chat_catch.
  destruct (status_is (error_status up) 429) eqn:E429.
  - simpl. split; [reflexivity|]. split; [|intros _; reflexivity].
    intros H4. rewrite H4 in E429. discriminate.
  - destruct (status_is (error_status up) 404) eqn:E404; simpl.
    + split; [reflexivity|]. split.
      * intros _. split; [reflexivity|].
        destruct (switch_model_chat cur) as [pre [post [_ [Hne _]]]]. exact Hne.
      * intros Hn4. destruct (error_status up) as [k|]; simpl in E404; [|discriminate].
        apply Nat.eqb_eq in E404. subst. contradiction.
    + split; [reflexivity|]. split; [|intros _; reflexivity].
      intros H4. rewrite H4 in E404. discriminate.
Qed.

(** A 404 on the default model: the reply names ['gemini-2.0-flash']. *)
Lemma chat_failure_reply_model_witness :
  model (fst (chat initial_model (Some "Tell me about Mars") (HttpError 404 None)))
    = Some "gemini-2.0-flash".
Proof.
  destruct (chat_failure_reply_model initial_model (Some "Tell me about Mars")
              (HttpError 404 None) eq_refl eq_refl) as [H [H404 _]].
  rewrite H, (proj1 (H404 eq_refl)). reflexivity.
Defined.

(** The identifiers [currentModel] can hold. *)
Definition known_models : list string :=
  ["gemini-2.5-flash"; "gemini-2.0-flash"; "gemini-pro-latest";
   "gemini-exp-1206"; "gemini-2.0-flash-001"].

Lemma switch_model_in l cur :
  switch_model l cur = cur \/ In (switch_model l cur) l.
Proof.
  induction l as [|m l IH]; simpl; auto.
  destruct (m =? cur)%string; simpl; [|auto].
  destruct IH; auto.
Qed.

Lemma handle_active_model localeCompare cur req env :
  snd (handle localeCompare cur req env) = cur \/
  In (snd (handle localeCompare cur req env)) known_models.
Proof.
  destruct req as [| | | | |msg|msg|n]; simpl; auto.
  - rewrite test_gemini_unfold. destruct (yields_text (up_call env)); auto.
    unfold test_gemini_catch.
    destruct (try_fallbacks test_fallback_models (up_fallback env)) as [m|] eqn:E;
      simpl; auto.
    right. apply try_fallbacks_some in E. destruct E as [Hin _].
    simpl in Hin |- *. tauto.
  - unfold chat. destruct (negb (field_truthy msg)); simpl; auto.
    assert (Hc : forall st em, snd (chat_catch cur msg st em) = cur \/
                               In (snd (chat_catch cur msg st em)) known_models).
    { intros st em. unfold chat_catch.
      destruct (status_is st 429); simpl; auto.
      destruct (status_is st 404); simpl; auto.
      destruct (switch_model_in chat_fallback_models cur) as [H|H]; auto.
      right. simpl in H |- *. tauto. }
    destruct (up_call env) as [d|st em|e]; auto.
    destruct (first_text d) as [t|]; auto.
    destruct (negb (t =? "")); simpl; auto.
Qed.

(** C4: [currentModel] starts as ['gemini-2.5-flash']; each request leaves
    it unchanged or sets it to a member of [known_models]; so after any
    sequence of requests it is a non-empty member of [known_models]. *)
Theorem active_model_known :
  initial_model = "gemini-2.5-flash" /\
  (forall localeCompare cur req env,
     snd (handle localeCompare cur req env) = cur \/
     In (snd (handle localeCompare cur req env)) known_models) /\
  (forall localeCompare trace,
     In (run localeCompare initial_model trace) known_models /\
     run localeCompare initial_model trace <> "").
Proof.
  split; [reflexivity|]. split; [apply handle_active_model|].
  intros localeCompare trace.
  assert (Hrun : forall cur, In cur known_models ->
                 In (run localeCompare cur trace) known_models).
  { induction trace as [|[req env] rest IH]; simpl; auto.
    intros cur Hin. apply IH.
    destruct (handle_active_model localeCompare cur req env) as [H|H]; auto.
    now rewrite H. }
  assert (Hin : In (run localeCompare initial_model trace) known_models).
  { apply Hrun. simpl. auto. }
  split; auto.
  intros Heq. rewrite Heq in Hin. simpl in Hin.
  repeat (destruct Hin as [Hin|Hin]; [discriminate|]). contradiction.
Qed.

(* ------------------------------------------------------------------ *)
(** ** Model test and quick test *)

(** C5: /test-gemini first uses the active model: if that call yields text
    the reply succeeds and the active model stays.  Otherwise the fallback
    models are tried in order and the first one that yields text becomes
    the active model and is reported with success:true.  The reply has
    status 500 exactly when the first call and every fallback attempt
    yield no text; it then has success:false, lists the tried models and
    keeps the active model. *)
Theorem test_gemini_fallback cur first attempt :
  (yields_text first = true ->
   status (fst (test_gemini cur first attempt)) = 200 /\
   success (fst (test_gemini cur first attempt)) = Some true /\
   model (fst (test_gemini cur first attempt)) = Some cur /\
   snd (test_gemini cur first attempt) = cur) /\
  (yields_text first = false ->
   forall pre m post,
     test_fallback_models = pre ++ m :: post ->
     Forall (fun p => yields_text (attempt p) = false) pre ->
     yields_text (attempt m) = true ->
     status (fst (test_gemini cur first attempt)) = 200 /\
     success (fst (test_gemini cur first attempt)) = Some true /\
     model (fst (test_gemini cur first attempt)) = Some m /\
     snd (test_gemini cur first attempt) = m) /\
  (status (fst (test_gemini cur first attempt)) = 500 <->
   yields_text first = false /\
   (forall m, In m test_fallback_models -> yields_text (attempt m) = false)) /\
  (status (fst (test_gemini cur first attempt)) = 500 ->
   success (fst (test_gemini cur first attempt)) = Some false /\
   tried (fst (test_gemini cur first attempt)) = test_fallback_models /\
   snd (test_gemini cur first attempt) = cur).
Proof.
  rewrite test_gemini_unfold.
  destruct (yields_text first) eqn:Ef.
  - split; [intros _; simpl; auto|]. split; [discriminate|].
    simpl. split; [split; [discriminate|intros [H _]; discriminate]|].
    discriminate.
  - split; [discriminate|]. unfold test_gemini_catch.
    split.
    + intros _ pre m post Hl Hpre Hm. rewrite Hl, (try_fallbacks_app pre m post attempt Hpre Hm).
      simpl. auto.
    + destruct (try_fallbacks test_fallback_models attempt) as [m|] eqn:Et; simpl.
      * split; [|discriminate]. split; [discriminate|].
        intros [_ Hall]. apply try_fallbacks_some in Et. destruct Et as [Hin Hm].
        rewrite (Hall m Hin) in Hm. discriminate.
      * split; [|auto]. split; [intros _|reflexivity].
        split; [reflexivity|]. intros m Hm. exact (proj1 (try_fallbacks_none test_fallback_models _) Et m Hm).
Qed.

(** The active model fails, ['gemini-2.0-flash'] fails and
    ['gemini-pro-latest'] answers: it becomes the active model. *)
Lemma test_gemini_fallback_witness :
  snd (test_gemini initial_model (HttpError 404 None)
         (fun m => if (m =? "gemini-pro-latest")%string
                   then Ok {| candidates := [[Some "Cosmic AI online"]]; totalTokenCount := None |}
                   else NetError "timeout of 5000ms exceeded")) = "gemini-pro-latest".
Proof.
  set (att := fun m => if (m =? "gemini-pro-latest")%string
                   then Ok {| candidates := [[Some "Cosmic AI online"]]; totalTokenCount := None |}
                   else NetError "timeout of 5000ms exceeded").
  destruct (test_gemini_fallback initial_model (HttpError 404 None) att)
    as [_ [Hfb _]].
  apply (Hfb eq_refl ["gemini-2.0-flash"] "gemini-pro-latest"
           ["gemini-exp-1206"; "gemini-2.0-flash-001"]); try reflexivity.
  repeat constructor.
Defined.

(** C9: /quick-test always replies with status 200 and leaves the active
    model unchanged; when the upstream call rejects (an error status, a
    network error or a timeout) the reply has success:false. *)
Theorem quick_test_never_fails localeCompare cur env :
  exists r, fst (handle localeCompare cur GetQuickTest env) = Sent r /\
  status r = 200 /\
  snd (handle localeCompare cur GetQuickTest env) = cur /\
  match up_call env with
  | Ok _ => success r = Some true
  | _ => success r = Some false
  end.
Proof.
  eexists. split; [reflexivity|]. simpl. unfold quick_test. now destruct (up_call env).
Qed.

(* ------------------------------------------------------------------ *)
(** ** Empty upstream replies *)

(** A 2xx upstream reply without any candidate. *)
Definition empty_data : response_data :=
  {| candidates := []; totalTokenCount := None |}.

(** C2: /chat treats a 2xx upstream reply without text as a failure
    (success:false with the fallback text), but /asteroid-info reports it
    with success:true and no [response] property at all. *)
Theorem asteroid_info_empty_text_success :
  success (fst (chat initial_model (Some "Tell me about Bennu") (Ok empty_data)))
    = Some false /\
  response (fst (chat initial_model (Some "Tell me about Bennu") (Ok empty_data)))
    = JString fallback_generic_text /\
  exists r, asteroid_info initial_model (Some "Bennu") (Ok empty_data) = Sent r /\
    status r = 200 /\ success r = Some true /\ response r = JUndefined.
Proof.
  split; [reflexivity|]. split; [reflexivity|].
  eexists. split; [reflexivity|]. repeat split.
Qed.

(* ------------------------------------------------------------------ *)
(** ** Chat fallback texts *)

(** The topic buckets of the chat fallback in priority order. *)
Definition fallback_buckets : list (list string * string) :=
  [(["asteroid"; "neo"], fallback_asteroid_text);
   (["mars"; "planet"], fallback_mars_text);
   (["moon"; "lunar"], fallback_moon_text);
   (["star"; "galaxy"], fallback_star_text);
   (["risk"; "danger"], fallback_risk_text)].

(** The text of the first bucket one of whose keywords occurs in
    [userMessage]; the generic text when none does. *)
Fixpoint first_bucket (userMessage : string) (bs : list (list string * string))
    : string :=
  match bs with
  | [] => fallback_generic_text
  | (ks, t) :: bs' =>
      if existsb (includes userMessage) ks then t else first_bucket userMessage bs'
  end.

Lemma pick_fallback_buckets userMessage :
  pick_fallback userMessage = first_bucket userMessage fallback_buckets.
Proof. unfold pick_fallback. simpl. now rewrite !orb_false_r. Qed.

(** C6 (counterexample): a /chat request about asteroids that fails with
    the rate-limit status gets the rate-limit text, not the asteroid text. *)
Lemma chat_rate_limit_text_not_bucket :
  response (fst (chat initial_model (Some "Tell me about asteroids")
                   (HttpError 429 None))) = JString rate_limit_text /\
  rate_limit_text <> fallback_asteroid_text.
Proof. split; [reflexivity|discriminate]. Qed.

(** C6 (amended): on every failed /chat request other than a rate-limit
    (429) failure the reply text is chosen from the lowercased message
    alone: the text of the first bucket (asteroid/neo, mars/planet,
    moon/lunar, star/galaxy, risk/danger) with a keyword occurring in it,
    or the generic text; neither the active model nor the failure matters. *)
Theorem chat_fallback_text cur m up :
  m <> "" -> yields_text up = false -> error_status up <> Some 429 ->
  response (fst (chat cur (Some m) up)) =
    JString (first_bucket (toLowerCase m) fallback_buckets).
Proof.
  intros Hm Hy H429.
  assert (Ht : field_truthy (Some m) = true).
  { simpl. destruct (String.eqb_spec m ""); [contradiction|reflexivity]. }
  rewrite chat_failure by assumption. unfold chat_catch.
  destruct (status_is (error_status up) 429) eqn:E.
  - destruct (error_status up) as [k|]; simpl in E; [|discriminate].
    apply Nat.eqb_eq in E. subst. contradiction.
  - simpl. now rewrite pick_fallback_buckets.
Qed.

(** An unreachable upstream and a question about Mars: the mars text. *)
Lemma chat_fallback_text_witness :
  response (fst (chat initial_model (Some "Tell me about MARS")
                   (NetError "getaddrinfo ENOTFOUND"))) = JString fallback_mars_text.
Proof.
  rewrite (chat_fallback_text initial_model "Tell me about MARS"
             (NetError "getaddrinfo ENOTFOUND")); [reflexivity|discriminate|reflexivity|discriminate].
Defined.

(* ------------------------------------------------------------------ *)
(** ** The asteroid fallback *)

(** C7: the catalog lookup of /asteroid-info is never reached.  Whenever
    the upstream call fails, for every non-empty name (stored or not), the
    catch block throws a ReferenceError on [asteroidName] at line 425
    before [asteroidDatabase] is consulted: the handler sends neither a
    fact sheet nor the under-analysis template, and the active model is
    unchanged. *)
Theorem asteroid_info_fallback_unreachable localeCompare cur name env :
  name <> "" -> (forall d, up_call env <> Ok d) ->
  handle localeCompare cur (PostAsteroidInfo (Some name)) env =
    (Thrown asteroid_reference_error, cur).
Proof.
  intros Hn Hu. simpl. unfold asteroid_info.
  destruct (String.eqb_spec name "") as [E|_]; [contradiction|]. simpl.
  destruct (up_call env) as [d|st em|m]; [now destruct (Hu d)|reflexivity|reflexivity].
Qed.

(** The end-to-end case of the specification: "Ceres" with the upstream
    unreachable. *)
Lemma asteroid_info_fallback_unreachable_witness :
  handle String.compare initial_model (PostAsteroidInfo (Some "Ceres"))
    {| up_call := NetError "getaddrinfo ENOTFOUND generativelanguage.googleapis.com";
       up_fallback := fun _ => NetError "getaddrinfo ENOTFOUND";
       up_models := FetchFailed "getaddrinfo ENOTFOUND" |} =
    (Thrown asteroid_reference_error, initial_model).
Proof.
  apply asteroid_info_fallback_unreachable; [discriminate|].
  intros d. discriminate.
Defined.

(* ------------------------------------------------------------------ *)
(** ** Model listing order *)

(** A sketch of [localeCompare] under the root collation, exact on ids made
    of ASCII letters, digits, '-' and '.': letters compare without case
    first (primary level), then lowercase before uppercase (tertiary). *)
Definition primary_weight (c : ascii) : nat :=
  let n := nat_of_ascii c in
  if Nat.leb 65 n && Nat.leb n 90 then n + 32 else n.

Definition case_weight (c : ascii) : nat :=
  let n := nat_of_ascii c in
  if Nat.leb 65 n && Nat.leb n 90 then 1 else 0.

Fixpoint compare_weights (w : ascii -> nat) (s1 s2 : string) : comparison :=
  match s1, s2 with
  | EmptyString, EmptyString => Eq
  | EmptyString, _ => Lt
  | _, EmptyString => Gt
  | String c1 r1, String c2 r2 =>
      match Nat.compare (w c1) (w c2) with
      | Eq => compare_weights w r1 r2
      | o => o
      end
  end.

Definition root_collation (a b : string) : comparison :=
  match compare_weights primary_weight a b with
  | Eq => compare_weights case_weight a b
  | o => o
  end.

Definition text_model_desc (name : string) : model_desc :=
  {| md_name := name; md_displayName := None; md_description := None;
     md_supportedGenerationMethods := Some ["generateContent"; "countTokens"] |}.

(** C8 (counterexample): two non-flash ids are listed by [localeCompare],
    so ["gemini-pro"] comes before ["Gemini-Ultra"], although
    lexicographically (by character code) ["Gemini-Ultra"] is smaller. *)
Lemma models_order_not_lexicographic :
  map tm_name (textModels root_collation
                 [text_model_desc "models/Gemini-Ultra"; text_model_desc "models/gemini-pro"])
    = ["gemini-pro"; "Gemini-Ultra"] /\
  String.compare "Gemini-Ultra" "gemini-pro" = Lt.
Proof. split; reflexivity. Qed.

Section ListingOrder.

Variable localeCompare : string -> string -> comparison.
Hypothesis localeCompare_antisym :
  forall a b, localeCompare b a = CompOpp (localeCompare a b).
Hypothesis localeCompare_trans :
  forall a b c, localeCompare a b <> Gt -> localeCompare b c <> Gt ->
                localeCompare a c <> Gt.

Definition not_after (a b : text_model) : Prop :=
  flash_compare localeCompare a b <> Gt.

Lemma flash_compare_antisym a b :
  flash_compare localeCompare b a = CompOpp (flash_compare localeCompare a b).
Proof.
  unfold flash_compare.
  destruct (is_flash a), (is_flash b); simpl; auto.
Qed.

Lemma not_after_total a b :
  flash_compare localeCompare a b = Gt -> not_after b a.
Proof.
  unfold not_after. intros H. rewrite flash_compare_antisym, H. discriminate.
Qed.

Lemma not_after_trans a b c : not_after a b -> not_after b c -> not_after a c.
Proof.
  unfold not_after, flash_compare.
  destruct (is_flash a), (is_flash b), (is_flash c); simpl;
    eauto; congruence.
Qed.

Lemma insert_by_perm x l :
  Permutation (insert_by (flash_compare localeCompare) x l) (x :: l).
Proof.
  induction l as [|y l IH]; simpl; [auto|].
  destruct (flash_compare localeCompare x y); auto.
  rewrite IH. apply perm_swap.
Qed.

Lemma sort_by_perm l :
  Permutation (sort_by (flash_compare localeCompare) l) l.
Proof.
  induction l as [|x l IH]; simpl; [auto|].
  rewrite insert_by_perm. now apply perm_skip.
Qed.

Lemma insert_by_sorted x l :
  Sorted not_after l -> Sorted not_after (insert_by (flash_compare localeCompare) x l).
Proof.
  induction l as [|y l IH]; simpl; intros Hs.
  - repeat constructor.
  - destruct (flash_compare localeCompare x y) eqn:E.
    + constructor; [exact Hs|]. constructor. unfold not_after. now rewrite E.
    + constructor; [exact Hs|]. constructor. unfold not_after. now rewrite E.
    + inversion Hs as [|? ? Hl Hhd]; subst.
      constructor; [now apply IH|].
      destruct l as [|z l]; simpl.
      * constructor. now apply not_after_total.
      * inversion Hhd; subst.
        destruct (flash_compare localeCompare x z); constructor;
          first [now apply not_after_total | assumption].
Qed.

Lemma sort_by_sorted l : Sorted not_after (sort_by (flash_compare localeCompare) l).
Proof.
  induction l as [|x l IH]; simpl; [constructor|]. now apply insert_by_sorted.
Qed.

(** [a] may be listed before [b]: a flash [b] needs a flash [a], and ids
    of equal flash status are in [localeCompare] order. *)
Definition listed_before (a b : text_model) : Prop :=
  (is_flash b = true -> is_flash a = true) /\
  (is_flash a = is_flash b -> localeCompare (tm_name a) (tm_name b) <> Gt).

Lemma not_after_listed_before a b : not_after a b -> listed_before a b.
Proof.
  unfold not_after, listed_before, flash_compare.
  destruct (is_flash a), (is_flash b); simpl; intuition congruence.
Qed.

Lemma StronglySorted_weaken (R S : text_model -> text_model -> Prop) l :
  (forall a b, R a b -> S a b) -> StronglySorted R l -> StronglySorted S l.
Proof.
  intros HRS Hs. induction Hs as [|x l _ IH Hx]; constructor; [exact IH|].
  eapply Forall_impl; [|exact Hx]. auto.
Qed.

Lemma keep_model_iff m :
  keep_model m = true <->
  md_name m <> "" /\
  (exists l, md_supportedGenerationMethods m = Some l /\ In "generateContent" l) /\
  includes (md_name m) "embedding" = false /\ includes (md_name m) "imagen" = false /\
  includes (md_name m) "veo" = false /\ includes (md_name m) "audio" = false /\
  includes (md_name m) "tts" = false.
Proof.
  unfold keep_model. rewrite !andb_true_iff, !negb_true_iff.
  split.
  - intros [[[[[[Hn Hs] He] Hi] Hv] Ha] Ht]. repeat split; auto.
    + intros Hx. rewrite Hx in Hn. discriminate.
    + destruct (md_supportedGenerationMethods m) as [l|]; [|discriminate].
      apply existsb_exists in Hs. destruct Hs as [x [Hx Hq]].
      apply String.eqb_eq in Hq. subst x. eauto.
  - intros [Hn [[l [Hl Hin]] [He [Hi [Hv [Ha Ht]]]]]].
    repeat split; auto.
    + destruct (String.eqb_spec (md_name m) ""); [contradiction|reflexivity].
    + rewrite Hl. apply existsb_exists. exists "generateContent".
      split; [exact Hin|]. apply String.eqb_refl.
Qed.

(** C8 (amended): /models lists exactly the upstream entries with a
    non-empty name that offer [generateContent] and whose name contains
    none of "embedding", "imagen", "veo", "audio", "tts" (each renamed by
    dropping its first "models/"), each as often as upstream lists it; every
    id containing "flash" comes before every id without it, and ids of
    equal flash status are in [localeCompare] order. *)
Theorem textModels_listing ms :
  Permutation (textModels localeCompare ms) (map to_text_model (filter keep_model ms)) /\
  (forall m, keep_model m = true <->
     md_name m <> "" /\
     (exists l, md_supportedGenerationMethods m = Some l /\ In "generateContent" l) /\
     includes (md_name m) "embedding" = false /\ includes (md_name m) "imagen" = false /\
     includes (md_name m) "veo" = false /\ includes (md_name m) "audio" = false /\
     includes (md_name m) "tts" = false) /\
  (forall m, tm_name (to_text_model m) = replace_first "models/" "" (md_name m)) /\
  StronglySorted listed_before (textModels localeCompare ms).
Proof.
  split; [apply sort_by_perm|]. split; [apply keep_model_iff|].
  split; [reflexivity|].
  apply (StronglySorted_weaken not_after); [apply not_after_listed_before|].
  apply Sorted_StronglySorted.
  - intros a b c. apply not_after_trans.
  - apply sort_by_sorted.
Qed.

End ListingOrder.

(** Any total preorder on ids serves as [localeCompare]; comparing lengths
    is one. *)
Definition compare_by_length (a b : string) : comparison :=
  Nat.compare (String.length a) (String.length b).

Lemma textModels_listing_witness :
  StronglySorted (listed_before compare_by_length)
    (textModels compare_by_length
       [text_model_desc "models/gemini-pro-latest";
        text_model_desc "models/text-embedding-004";
        text_model_desc "models/gemini-2.5-flash"]).
Proof.
  apply (textModels_listing compare_by_length).
  - intros a b. apply Nat.compare_antisym.
  - intros a b c. unfold compare_by_length. rewrite !Nat.compare_le_iff. lia.
Defined.

(* ------------------------------------------------------------------ *)
(** ** Further properties of the routes *)

(** /chat without a (non-empty) [message] answers 400 "Message is
    required" whatever the upstream would do, and keeps the model. *)
Theorem chat_validation localeCompare cur msg env :
  field_truthy msg = false ->
  exists r, fst (handle localeCompare cur (PostChat msg) env) = Sent r /\
  status r = 400 /\
  error r = Some "Message is required" /\
  snd (handle localeCompare cur (PostChat msg) env) = cur.
Proof.
  intros H. simpl. rewrite chat_missing_message by exact H.
  eexists. split; [reflexivity|]. auto.
Qed.

Lemma chat_validation_witness :
  exists r, fst (handle String.compare initial_model (PostChat (Some "")) rate_limited_env)
    = Sent r /\ status r = 400.
Proof.
  destruct (chat_validation String.compare initial_model (Some "") rate_limited_env)
    as [r [H1 [H2 _]]]; [reflexivity|].
  exists r. split; assumption.
Defined.

(** The [error] property of a failed /chat reply (other than 429) is the
    upstream error message when upstream sent a non-empty one, else
    "Connection issue" (also for an empty upstream message). *)
Theorem chat_error_property cur msg up :
  field_truthy msg = true -> yields_text up = false ->
  error_status up <> Some 429 ->
  error (fst (chat cur msg up)) =
    Some (match error_message up with
          | Some e => if e =? "" then "Connection issue" else e
          | None => "Connection issue"
          end).
Proof.
  intros Hm Hy H429. rewrite chat_failure by assumption. unfold chat_catch.
  destruct (status_is (error_status up) 429) eqn:E.
  - destruct (error_status up) as [k|]; simpl in E; [|discriminate].
    apply Nat.eqb_eq in E. subst. contradiction.
  - reflexivity.
Qed.

Lemma chat_error_property_witness :
  error (fst (chat initial_model (Some "hi") (HttpError 503 (Some "The model is overloaded."))))
    = Some "The model is overloaded." /\
  error (fst (chat initial_model (Some "hi") (HttpError 500 (Some ""))))
    = Some "Connection issue".
Proof.
  split.
  - apply (chat_error_property initial_model (Some "hi")
             (HttpError 503 (Some "The model is overloaded."))); [reflexivity|reflexivity|discriminate].
  - apply (chat_error_property initial_model (Some "hi")
             (HttpError 500 (Some ""))); [reflexivity|reflexivity|discriminate].
Defined.

(** [currentModel] changes only on /test-gemini or on a /chat request
    carrying a message whose upstream call failed with status 404. *)
Theorem active_model_transitions localeCompare cur req env :
  snd (handle localeCompare cur req env) <> cur ->
  req = GetTestGemini \/
  exists msg, req = PostChat msg /\ field_truthy msg = true /\
              error_status (up_call env) = Some 404.
Proof.
  intros Hne. destruct req as [| | | | |msg|msg|n]; simpl in Hne;
    try (contradiction || (left; reflexivity)).
  right. exists msg.
  destruct (field_truthy msg) eqn:Em;
    [|rewrite chat_missing_message in Hne by exact Em; contradiction].
  destruct (yields_text (up_call env)) eqn:Ey.
  - destruct (chat_success cur msg (up_call env) Em Ey) as [_ [_ [_ H]]]. contradiction.
  - rewrite chat_failure in Hne by assumption. unfold chat_catch in Hne.
    destruct (status_is (error_status (up_call env)) 429); [contradiction|].
    destruct (status_is (error_status (up_call env)) 404) eqn:E; [|contradiction].
    split; [reflexivity|]. split; [reflexivity|].
    destruct (error_status (up_call env)) as [k|]; simpl in E; [|discriminate].
    apply Nat.eqb_eq in E. now subst.
Qed.

Lemma active_model_transitions_witness :
  exists msg, PostChat (Some "hi") = PostChat msg /\ field_truthy msg = true /\
    error_status (up_call {| up_call := HttpError 404 None;
                             up_fallback := fun _ => NetError "timeout";
                             up_models := FetchFailed "timeout" |}) = Some 404.
Proof.
  destruct (active_model_transitions String.compare initial_model (PostChat (Some "hi"))
              {| up_call := HttpError 404 None; up_fallback := fun _ => NetError "timeout";
                 up_models := FetchFailed "timeout" |}) as [H|H]; [discriminate| |exact H].
  discriminate.
Defined.

(** The 404 switch of /chat only ever selects ['gemini-2.0-flash'] or
    ['gemini-pro-latest']: the third fallback ['gemini-exp-1206'] is never
    reached, and two 404 failures in a row return to a model of that pair. *)
Theorem chat_404_alternates cur m1 m2 e1 e2 :
  field_truthy m1 = true -> field_truthy m2 = true ->
  let cur1 := snd (chat cur m1 (HttpError 404 e1)) in
  (cur1 = "gemini-2.0-flash" \/ cur1 = "gemini-pro-latest") /\
  cur1 <> "gemini-exp-1206" /\
  (cur = "gemini-2.0-flash" \/ cur = "gemini-pro-latest" ->
   snd (chat cur1 m2 (HttpError 404 e2)) = cur).
Proof.
  intros H1 H2. cbv zeta.
  assert (Hs : forall c m e, field_truthy m = true ->
            snd (chat c m (HttpError 404 e)) = switch_model chat_fallback_models c).
  { intros c m e Hm. rewrite chat_failure by (auto || reflexivity). reflexivity. }
  rewrite !Hs by assumption.
  unfold switch_model, chat_fallback_models.
  destruct (String.eqb_spec "gemini-2.0-flash" cur) as [Heq|Hne]; simpl.
  - subst cur. split; [auto|]. split; [discriminate|]. reflexivity.
  - split; [auto|]. split; [discriminate|].
    intros [Hc|Hc]; subst cur; [contradiction|reflexivity].
Qed.

Lemma chat_404_alternates_witness :
  snd (chat (snd (chat "gemini-pro-latest" (Some "a") (HttpError 404 None)))
            (Some "b") (HttpError 404 None)) = "gemini-pro-latest".
Proof.
  apply (chat_404_alternates "gemini-pro-latest" (Some "a") (Some "b") None None
           eq_refl eq_refl).
  right. reflexivity.
Defined.

(** /asteroid-info without a (non-empty) [asteroidName] answers 200 with
    success:false and the prompt listing the known asteroids, whatever the
    upstream would do. *)
Theorem asteroid_info_missing_name cur n up :
  field_truthy n = false ->
  asteroid_info cur n up =
    Sent (mk_reply 200 (Some false) (JString ask_for_asteroid_text) None None).
Proof.
  unfold asteroid_info, field_truthy. destruct n as [s|]; [|reflexivity].
  intros H. now rewrite H.
Qed.

Lemma asteroid_info_missing_name_witness :
  asteroid_info initial_model (Some "") (NetError "timeout") =
    Sent (mk_reply 200 (Some false) (JString ask_for_asteroid_text) None None).
Proof. apply asteroid_info_missing_name. reflexivity. Defined.

(** /quick-test does not check the upstream text: a 2xx reply without a
    usable text (no candidate, no text part, or an empty text) is still
    reported with success:true; its [response] is then falsy: absent when
    there is no text, and the empty string when the text is empty. *)
Theorem quick_test_empty_text cur d :
  yields_text (Ok d) = false ->
  success (quick_test cur (Ok d)) = Some true /\
  truthy (response (quick_test cur (Ok d))) = false /\
  (first_text d = None -> response (quick_test cur (Ok d)) = JUndefined).
Proof.
  simpl. unfold field_truthy. intros H. split; [reflexivity|].
  destruct (first_text d); simpl; [|auto].
  split; [exact H|discriminate].
Qed.

Lemma quick_test_empty_text_witness :
  success (quick_test initial_model (Ok empty_data)) = Some true.
Proof. apply (quick_test_empty_text initial_model empty_data). reflexivity. Defined.



Lemma substring_all s : substring 0 (String.length s) s = s.
Proof. induction s as [|c s IH]; simpl; congruence. Qed.

(** An upstream name ["models/" ++ s] is listed under the id [s]. *)
Theorem listed_id_strips_prefix m (s : string) :
  md_name m = String.append "models/" s -> tm_name (to_text_model m) = s.
Proof.
  intros H. simpl. rewrite H. simpl. rewrite Nat.sub_0_r.
  replace (prefix "" s) with true by (destruct s; reflexivity). apply substring_all.
Qed.

Lemma listed_id_strips_prefix_witness :
  tm_name (to_text_model (text_model_desc "models/gemini-2.5-flash")) = "gemini-2.5-flash".
Proof. apply listed_id_strips_prefix. reflexivity. Defined.

(* ------------------------------------------------------------------ *)
(** * The solar-system view (frontend/main.js)

    The scene graph as the list of the scene's children, each with the
    identity of its Three.js object; [next_id] hands out fresh identities.
    Random coordinates (stars, asteroid positions and spins), materials,
    the camera and the renderer are left out; [animate] only moves and
    spins objects and is not modelled. *)
Module SolarView.

Definition Q := QArith_base.Q.

(** A planet mesh of [createPlanet]: sphere radius [size / 10], colour,
    and [position.x = distance]. *)
Record planet_mesh := {
  pm_radius : Q;
  pm_color : Z;
  pm_x : nat
}.

Inductive scene_kind :=
| AmbientLight
| PointLight
| StarField
| SunMesh
| SunGlow
| ExtraGlow (i : nat)
(** an orbit [Group]: the planet mesh and, when [showOrbits] held, an
    orbit line of radius [distance] *)
| OrbitGroup (planet : planet_mesh) (orbit_line : option nat)
| AsteroidMesh.

Record scene_obj := { obj_id : nat; obj_kind : scene_kind }.

(** An element of the [planets] array. *)
Record planet_entry := {
  pe_orbit : nat;
  pe_distance : nat;
  pe_speed : Q;
  pe_name : string
}.

Record ui_state := {
  scene : list scene_obj;
  planets : list planet_entry;
  autoRotate : bool;
  showOrbits : bool;
  controls_autoRotate : bool;
  next_id : nat
}.

(** [scene.add(new ...)]. *)
Definition add_new (k : scene_kind) (st : ui_state) : ui_state :=
  {| scene := scene st ++ [{| obj_id := next_id st; obj_kind := k |}];
     planets := planets st; autoRotate := autoRotate st;
     showOrbits := showOrbits st; controls_autoRotate := controls_autoRotate st;
     next_id := S (next_id st) |}.

(** [createPlanet(size, color, distance, speed, name)]. *)
Definition createPlanet (size : Q) (color : Z) (distance : nat) (speed : Q)
    (name : string) (st : ui_state) : ui_state :=
  let pm := {| pm_radius := QArith_base.Qdiv size (QArith_base.inject_Z 10);
               pm_color := color; pm_x := distance |} in
  let line := if showOrbits st then Some distance else None in
  let id := next_id st in
  {| scene := scene st ++ [{| obj_id := id; obj_kind := OrbitGroup pm line |}];
     planets := planets st ++
       [{| pe_orbit := id; pe_distance := distance; pe_speed := speed; pe_name := name |}];
     autoRotate := autoRotate st; showOrbits := showOrbits st;
     controls_autoRotate := controls_autoRotate st; next_id := S id |}.

(** The six [createPlanet] calls of [init] and [toggleOrbitsDisplay]. *)
Definition solar_table : list (Q * Z * nat * Q * string) :=
  [(QArith_base.Qmake 6 1, 0xc4c4c4%Z, 10, QArith_base.Qmake 8 1000, "Mercury");
   (QArith_base.Qmake 8 1, 0xe5e5e5%Z, 15, QArith_base.Qmake 6 1000, "Venus");
   (QArith_base.Qmake 85 10, 0xd4d4d4%Z, 20, QArith_base.Qmake 5 1000, "Earth");
   (QArith_base.Qmake 7 1, 0xcccccc%Z, 26, QArith_base.Qmake 4 1000, "Mars");
   (QArith_base.Qmake 15 1, 0xe8e8e8%Z, 45, QArith_base.Qmake 2 1000, "Jupiter");
   (QArith_base.Qmake 13 1, 0xf0f0f0%Z, 60, QArith_base.Qmake 15 10000, "Saturn")].

Definition createPlanets (st : ui_state) : ui_state :=
  fold_left (fun st '(size, color, distance, speed, name) =>
               createPlanet size color distance speed name st) solar_table st.

(** [createStarfield()]: one [Points] object. *)
Definition createStarfield (st : ui_state) : ui_state := add_new StarField st.

(** [createSun()]: the sun, its glow and three further glow layers. *)
Definition createSun (st : ui_state) : ui_state :=
  add_new (ExtraGlow 3) (add_new (ExtraGlow 2) (add_new (ExtraGlow 1)
    (add_new SunGlow (add_new SunMesh st)))).

(** [createAsteroidBelt()]: 300 asteroid meshes. *)
Definition createAsteroidBelt (st : ui_state) : ui_state :=
  Nat.iter 300 (add_new AsteroidMesh) st.

(** [init()] ([controls.autoRotate = autoRotate] included), from the module's initial [autoRotate = true],
    [showOrbits = true] and an empty scene. *)
Definition init : ui_state :=
  let autoRotate0 := true in
  let st0 := {| scene := []; planets := []; autoRotate := autoRotate0; showOrbits := true;
                controls_autoRotate := autoRotate0; next_id := 0 |} in
  createAsteroidBelt (createPlanets (createSun (createStarfield
    (add_new PointLight (add_new AmbientLight st0))))).

(** [toggleRotation()]. *)
Definition toggleRotation (st : ui_state) : ui_state :=
  {| scene := scene st; planets := planets st; autoRotate := negb (autoRotate st);
     showOrbits := showOrbits st; controls_autoRotate := negb (autoRotate st);
     next_id := next_id st |}.

(** [scene.remove(obj)]. *)
Definition remove_obj (id : nat) (st : ui_state) : ui_state :=
  {| scene := filter (fun o => negb (Nat.eqb (obj_id o) id)) (scene st);
     planets := planets st; autoRotate := autoRotate st; showOrbits := showOrbits st;
     controls_autoRotate := controls_autoRotate st; next_id := next_id st |}.

(** [toggleOrbitsDisplay()]. *)
Definition toggleOrbitsDisplay (st : ui_state) : ui_state :=
  let st1 := {| scene := scene st; planets := planets st; autoRotate := autoRotate st;
                showOrbits := negb (showOrbits st);
                controls_autoRotate := controls_autoRotate st; next_id := next_id st |} in
  let st2 := fold_left (fun s p => remove_obj (pe_orbit p) s) (planets st) st1 in
  createPlanets
    {| scene := scene st2; planets := []; autoRotate := autoRotate st2;
       showOrbits := showOrbits st2; controls_autoRotate := controls_autoRotate st2;
       next_id := next_id st2 |}.

(** The clicks on #rotateBtn and #orbitsBtn. *)
Inductive ui_event := RotateClick | OrbitsClick.

Definition ui_step (st : ui_state) (e : ui_event) : ui_state :=
  match e with
  | RotateClick => toggleRotation st
  | OrbitsClick => toggleOrbitsDisplay st
  end.

Definition run_ui (events : list ui_event) : ui_state := fold_left ui_step events init.

(** ** Invariants of the view *)

Definition is_orbit (k : scene_kind) : bool :=
  match k with OrbitGroup _ _ => true | _ => false end.

Definition orbit_objs (l : list scene_obj) : list scene_obj :=
  filter (fun o => is_orbit (obj_kind o)) l.

Definition other_objs (l : list scene_obj) : list scene_obj :=
  filter (fun o => negb (is_orbit (obj_kind o))) l.

(** An orbit group has its orbit line (of the planet's distance) exactly
    when [show] holds. *)
Definition line_ok (show : bool) (o : scene_obj) : bool :=
  match obj_kind o with
  | OrbitGroup pm (Some d) => show && Nat.eqb d (pm_x pm)
  | OrbitGroup _ None => negb show
  | _ => true
  end.

Definition planet_row (p : planet_entry) : nat * Q * string :=
  (pe_distance p, pe_speed p, pe_name p).

Definition table_rows : list (nat * Q * string) :=
  map (fun '(_, _, d, sp, n) => (d, sp, n)) solar_table.

Definition base_ids : list nat := map obj_id (other_objs (scene init)).

Definition view_inv (st : ui_state) : Prop :=
  controls_autoRotate st = autoRotate st /\
  map planet_row (planets st) = table_rows /\
  map obj_id (orbit_objs (scene st)) = map pe_orbit (planets st) /\
  forallb (line_ok (showOrbits st)) (scene st) = true /\
  other_objs (scene st) = other_objs (scene init) /\
  forallb (fun p => negb (existsb (Nat.eqb (pe_orbit p)) base_ids)) (planets st) = true /\
  forallb (fun i => Nat.ltb i (next_id st)) base_ids = true.

Fixpoint new_orbits (show : bool) (n : nat) (t : list (Q * Z * nat * Q * string))
    : list scene_obj :=
  match t with
  | [] => []
  | (size, color, d, sp, name) :: t' =>
      {| obj_id := n;
         obj_kind := OrbitGroup {| pm_radius := QArith_base.Qdiv size (QArith_base.inject_Z 10);
                                   pm_color := color; pm_x := d |}
                                (if show then Some d else None) |}
      :: new_orbits show (S n) t'
  end.

Fixpoint new_entries (n : nat) (t : list (Q * Z * nat * Q * string))
    : list planet_entry :=
  match t with
  | [] => []
  | (size, color, d, sp, name) :: t' =>
      {| pe_orbit := n; pe_distance := d; pe_speed := sp; pe_name := name |}
      :: new_entries (S n) t'
  end.

Lemma fold_createPlanet t st :
  fold_left (fun st '(size, color, distance, speed, name) =>
               createPlanet size color distance speed name st) t st =
  {| scene := scene st ++ new_orbits (showOrbits st) (next_id st) t;
     planets := planets st ++ new_entries (next_id st) t;
     autoRotate := autoRotate st; showOrbits := showOrbits st;
     controls_autoRotate := controls_autoRotate st;
     next_id := next_id st + length t |}.
Proof.
  revert st. induction t as [|[[[[size color] d] sp] name] t IH]; intros st; simpl.
  - destruct st; simpl. now rewrite !app_nil_r, Nat.add_0_r.
  - rewrite IH. simpl. f_equal; try (rewrite <- app_assoc; reflexivity). lia.
Qed.

Lemma new_orbits_ids show n t :
  map obj_id (orbit_objs (new_orbits show n t)) = map pe_orbit (new_entries n t).
Proof.
  revert n. induction t as [|[[[[size color] d] sp] name] t IH]; intros n; simpl;
    [reflexivity|]. now rewrite IH.
Qed.

Lemma new_orbits_other show n t : other_objs (new_orbits show n t) = [].
Proof.
  revert n. induction t as [|[[[[size color] d] sp] name] t IH]; intros n; simpl; auto.
Qed.

Lemma new_orbits_lines show n t : forallb (line_ok show) (new_orbits show n t) = true.
Proof.
  revert n. induction t as [|[[[[size color] d] sp] name] t IH]; intros n; simpl;
    [reflexivity|].
  rewrite IH. destruct show; cbn -[Nat.eqb]; rewrite ?Nat.eqb_refl; reflexivity.
Qed.

Lemma new_entries_rows n : map planet_row (new_entries n solar_table) = table_rows.
Proof. reflexivity. Qed.

Lemma new_entries_fresh n t p : In p (new_entries n t) -> n <= pe_orbit p.
Proof.
  revert n. induction t as [|[[[[size color] d] sp] name] t IH]; intros n; simpl;
    [contradiction|].
  intros [<-|H]; simpl; [lia|]. apply IH in H. lia.
Qed.

Lemma filter_filter_and {A} (f g : A -> bool) l :
  filter g (filter f l) = filter (fun x => f x && g x) l.
Proof.
  induction l as [|x l IH]; simpl; [reflexivity|].
  destruct (f x); simpl; [destruct (g x); simpl; congruence|exact IH].
Qed.

Lemma filter_keep_all {A} (f g : A -> bool) l :
  (forall x, In x l -> f x = true -> g x = true) ->
  filter f (filter g l) = filter f l.
Proof.
  induction l as [|x l IH]; simpl; intros H; [reflexivity|].
  destruct (f x) eqn:Ef.
  - rewrite (H x (or_introl eq_refl) Ef). simpl. rewrite Ef. f_equal. auto.
  - destruct (g x); simpl; [rewrite Ef|]; auto.
Qed.

Lemma filter_drop_all {A} (f g : A -> bool) l :
  (forall x, In x l -> f x = true -> g x = false) ->
  filter f (filter g l) = [].
Proof.
  induction l as [|x l IH]; simpl; intros H; [reflexivity|].
  destruct (g x) eqn:Eg; simpl.
  - destruct (f x) eqn:Ef; [rewrite (H x (or_introl eq_refl) Ef) in Eg; discriminate|].
    auto.
  - auto.
Qed.

Lemma remove_fold ps st :
  fold_left (fun s p => remove_obj (pe_orbit p) s) ps st =
  {| scene := filter (fun o => forallb (fun p => negb (Nat.eqb (obj_id o) (pe_orbit p))) ps)
                (scene st);
     planets := planets st; autoRotate := autoRotate st; showOrbits := showOrbits st;
     controls_autoRotate := controls_autoRotate st; next_id := next_id st |}.
Proof.
  revert st. induction ps as [|p ps IH]; intros st; simpl.
  - destruct st; simpl. f_equal.
    induction scene0 as [|o l IHl]; simpl; congruence.
  - rewrite IH. simpl. f_equal. apply filter_filter_and.
Qed.

Lemma lines_no_orbits b l : orbit_objs l = [] -> forallb (line_ok b) l = true.
Proof.
  induction l as [|o l IH]; simpl; [reflexivity|].
  unfold line_ok at 1. destruct (obj_kind o); simpl; try discriminate; auto.
Qed.

Lemma view_inv_rotate st : view_inv st -> view_inv (toggleRotation st).
Proof.
  intros [Hc [Hr [Ho [Hl [Hb [Hp Hn]]]]]]. unfold toggleRotation, view_inv; simpl.
  repeat split; auto.
Qed.

Lemma view_inv_orbits st : view_inv st -> view_inv (toggleOrbitsDisplay st).
Proof.
  intros [Hc [Hr [Ho [Hl [Hb [Hp Hn]]]]]].
  unfold toggleOrbitsDisplay, createPlanets. rewrite remove_fold, fold_createPlanet.
  unfold view_inv; cbn [scene planets autoRotate showOrbits controls_autoRotate next_id].
  rewrite app_nil_l.
  set (K := fun o => forallb (fun p => negb (Nat.eqb (obj_id o) (pe_orbit p))) (planets st)).
  assert (Hgone : orbit_objs (filter K (scene st)) = []).
  { unfold orbit_objs. apply filter_drop_all. intros x Hx Hox.
    assert (Hin : In (obj_id x) (map pe_orbit (planets st))).
    { rewrite <- Ho. apply in_map. unfold orbit_objs. now apply filter_In. }
    apply in_map_iff in Hin. destruct Hin as [p [Hpx Hpin]].
    unfold K. apply (proj2 (forallb_false_iff_exists _ _)) || idtac.
    apply not_true_iff_false. intros Hall. rewrite forallb_forall in Hall.
    specialize (Hall p Hpin). rewrite Hpx, Nat.eqb_refl in Hall. discriminate. }
  assert (Hkeep : other_objs (filter K (scene st)) = other_objs (scene st)).
  { unfold other_objs. apply filter_keep_all. intros x Hx Hnx.
    unfold K. apply forallb_forall. intros p Hpin.
    apply negb_true_iff, Nat.eqb_neq. intros Heq.
    rewrite forallb_forall in Hp. specialize (Hp p Hpin).
    assert (Hxb : In (obj_id x) base_ids).
    { unfold base_ids. rewrite <- Hb. apply in_map. now apply filter_In. }
    rewrite Heq in Hxb. apply negb_true_iff in Hp.
    apply not_true_iff_false in Hp. apply Hp. apply existsb_exists.
    exists (pe_orbit p). split; [exact Hxb|apply Nat.eqb_refl]. }
  split; [exact Hc|]. split; [apply new_entries_rows|].
  split; [|split; [|split; [|split]]].
  - unfold orbit_objs at 1. rewrite filter_app. fold (orbit_objs (filter K (scene st))).
    rewrite Hgone, app_nil_l.
    fold (orbit_objs (new_orbits (negb (showOrbits st)) (next_id st) solar_table)).
    apply new_orbits_ids.
  - rewrite forallb_app, lines_no_orbits, new_orbits_lines by exact Hgone. reflexivity.
  - unfold other_objs at 1. rewrite filter_app.
    fold (other_objs (filter K (scene st))).
    fold (other_objs (new_orbits (negb (showOrbits st)) (next_id st) solar_table)).
    rewrite Hkeep, new_orbits_other, app_nil_r. exact Hb.
  - apply forallb_forall. intros p Hpin. apply negb_true_iff.
    apply not_true_iff_false. intros Hex. apply existsb_exists in Hex.
    destruct Hex as [i [Hi Heq]]. apply Nat.eqb_eq in Heq.
    apply new_entries_fresh in Hpin.
    rewrite forallb_forall in Hn. specialize (Hn i Hi). apply Nat.ltb_lt in Hn. lia.
  - apply forallb_forall. intros i Hi. rewrite forallb_forall in Hn.
    specialize (Hn i Hi). apply Nat.ltb_lt in Hn. apply Nat.ltb_lt. lia.
Qed.

Lemma view_inv_init : view_inv init.
Proof.
  unfold view_inv.
  split; [vm_compute; reflexivity|]. split; [vm_compute; reflexivity|].
  split; [vm_compute; reflexivity|]. split; [vm_compute; reflexivity|].
  split; [vm_compute; reflexivity|]. split; vm_compute; reflexivity.
Qed.

Lemma view_inv_run events : view_inv (run_ui events).
Proof.
  unfold run_ui. generalize view_inv_init. generalize init.
  induction events as [|e es IH]; intros st H; simpl; [exact H|].
  apply IH. destruct e; simpl; [now apply view_inv_rotate|now apply view_inv_orbits].
Qed.

(** After [init] and any sequence of clicks on the rotate and orbits
    buttons: [controls.autoRotate] agrees with [autoRotate]; [planets]
    lists Mercury, Venus, Earth, Mars, Jupiter and Saturn with their
    distances and speeds, once each; the orbit groups in the scene are
    exactly the groups of these entries, in order (rebuilding the planets
    leaks no old group and loses none); every orbit group has its orbit
    line exactly when [showOrbits] holds; and the other scene objects
    (lights, starfield, sun and glows, asteroids) are those [init] created. *)
Theorem view_after_clicks events :
  let st := run_ui events in
  controls_autoRotate st = autoRotate st /\
  map planet_row (planets st) =
    [(10, QArith_base.Qmake 8 1000, "Mercury"); (15, QArith_base.Qmake 6 1000, "Venus");
     (20, QArith_base.Qmake 5 1000, "Earth"); (26, QArith_base.Qmake 4 1000, "Mars");
     (45, QArith_base.Qmake 2 1000, "Jupiter"); (60, QArith_base.Qmake 15 10000, "Saturn")] /\
  map obj_id (orbit_objs (scene st)) = map pe_orbit (planets st) /\
  (forall o pm line, In o (scene st) -> obj_kind o = OrbitGroup pm line ->
     line = if showOrbits st then Some (pm_x pm) else None) /\
  other_objs (scene st) = other_objs (scene init).
Proof.
  cbv zeta. destruct (view_inv_run events) as [Hc [Hr [Ho [Hl [Hb _]]]]].
  split; [exact Hc|]. split; [exact Hr|]. split; [exact Ho|]. split; [|exact Hb].
  intros o pm line Hin Hk. rewrite forallb_forall in Hl. specialize (Hl o Hin).
  unfold line_ok in Hl. rewrite Hk in Hl.
  destruct line as [d|], (showOrbits (run_ui events)); simpl in Hl; try discriminate; auto.
  apply Nat.eqb_eq in Hl. now subst.
Qed.

Lemma toggle_flags st :
  showOrbits (toggleOrbitsDisplay st) = negb (showOrbits st) /\
  autoRotate (toggleOrbitsDisplay st) = autoRotate st.
Proof.
  unfold toggleOrbitsDisplay, createPlanets. rewrite remove_fold, fold_createPlanet.
  split; reflexivity.
Qed.

Definition same_button (e e' : ui_event) : bool :=
  match e, e' with
  | RotateClick, RotateClick | OrbitsClick, OrbitsClick => true
  | _, _ => false
  end.

Fixpoint clicks (e : ui_event) (events : list ui_event) : nat :=
  match events with
  | [] => 0
  | e' :: es => if same_button e e' then S (clicks e es) else clicks e es
  end.

(** Both buttons are toggles: orbit lines are shown and the view
    auto-rotates exactly after an even number of clicks on the
    respective button. *)
Theorem toggles_parity events :
  showOrbits (run_ui events) = Nat.even (clicks OrbitsClick events) /\
  autoRotate (run_ui events) = Nat.even (clicks RotateClick events).
Proof.
  unfold run_ui.
  assert (H : forall st,
    showOrbits (fold_left ui_step events st) =
      (if Nat.even (clicks OrbitsClick events) then showOrbits st else negb (showOrbits st)) /\
    autoRotate (fold_left ui_step events st) =
      (if Nat.even (clicks RotateClick events) then autoRotate st else negb (autoRotate st))).
  { induction events as [|e es IH]; intros st; simpl; [auto|].
    destruct (IH (ui_step st e)) as [H1 H2]. rewrite H1, H2.
    destruct e; cbn [clicks same_button ui_step].
    - unfold toggleRotation; cbn [showOrbits autoRotate].
      rewrite Nat.even_succ, <- Nat.negb_even.
      destruct (Nat.even (clicks OrbitsClick es)), (Nat.even (clicks RotateClick es));
        simpl; auto; now rewrite ?negb_involutive.
    - cbn [clicks same_button]. destruct (toggle_flags st) as [F1 F2]. rewrite F1, F2, Nat.even_succ, <- Nat.negb_even.
      destruct (Nat.even (clicks OrbitsClick es)), (Nat.even (clicks RotateClick es));
        simpl; auto; now rewrite ?negb_involutive. }
  destruct (H init) as [H1 H2]. rewrite H1, H2.
  replace (showOrbits init) with true by (vm_compute; reflexivity).
  replace (autoRotate init) with true by (vm_compute; reflexivity).
  destruct (Nat.even (clicks OrbitsClick events)), (Nat.even (clicks RotateClick events));
    split; reflexivity.
Qed.

End SolarView.
